(** * app/app.py: secret resolution behind a single web route

    A shallow embedding of [src/app/app.py] and the verification of its
    specification.  The program has two functions: [ssm_secret], which
    decides whether a configuration value is a literal or a reference into
    the SSM parameter store, and [hello], the handler of the only route.

    Both read the process environment ([os.environ]) and [ssm_secret] talks
    to the parameter store through a boto3 client.  These effects are
    modelled by a state-and-exception monad over a [World] holding the
    environment, the remote store and the log of calls made to boto3. *)

From stdpp Require Import base gmap strings list.

Open Scope string_scope.

(** ** Python strings

    [str] values are modelled by [string]; the operations the program uses
    ([len], [==], [+] and slices with non-negative bounds) do not depend on
    the alphabet. *)
Module PyStr.

(** [s[0:n]] for [n >= 0]: the first [n] characters, or all of [s] when it
    is shorter.  A slice never raises. *)
Fixpoint slice_to (n : nat) (s : string) : string :=
  match n, s with
  | S n', String c s' => String c (slice_to n' s')
  | _, _ => ""
  end.

(** [s[n:]] for [n >= 0]: [s] without its first [n] characters, empty when
    [s] is shorter. *)
Fixpoint slice_from (n : nat) (s : string) : string :=
  match n, s with
  | S n', String _ s' => slice_from n' s'
  | S _, EmptyString => ""
  | O, _ => s
  end.

(** [s.startswith(p)], the property the slice comparison tests. *)
Definition starts_with (p s : string) : Prop := ∃ rest, s = p +:+ rest.

End PyStr.
Import PyStr.

(** ** The parameter store

    The external collaborator behind [client.get_parameter]: a table of
    named parameters, each with the text it stores and its decrypted value,
    and an optional service-wide fault (access denied, endpoint out of
    reach).  A lookup reads the table and never writes it. *)
Inductive ssm_fault : Type :=
| ParameterNotFound
| AccessDeniedException
| EndpointConnectionError.

Record SsmParameter : Type := mkParam {
  Stored : string;   (* what is returned without decryption *)
  Value : string     (* the decrypted value *)
}.

Record ParameterStore : Type := mkStore {
  parameters : gmap string SsmParameter;
  fault : option ssm_fault
}.

(** The response dictionary of [get_parameter]; the program reads
    [result['Parameter']['Value']]. *)
Record ParameterEntry : Type := mkEntry {
  EntryName : string;
  EntryValue : string
}.

Record GetParameterResult : Type := mkResult {
  ResultParameter : ParameterEntry
}.

Definition store_get_parameter (st : ParameterStore) (name : string)
    (with_decryption : bool) : ssm_fault + GetParameterResult :=
  match fault st with
  | Some f => inl f
  | None =>
      match parameters st !! name with
      | None => inl ParameterNotFound
      | Some p =>
          inr (mkResult
                 (mkEntry name
                    (if with_decryption then Value p else Stored p)))
      end
  end.

(** ** Exceptions, events and the world *)

Inductive exn : Type :=
| KeyError (key : string)                       (* [os.environ[key]], unset *)
| ClientError (name : string) (f : ssm_fault).  (* raised by [get_parameter] *)

(** The two failure classes of the specification. *)
Inductive failure_class : Type := MissingConfiguration | LookupFailure.

Definition classify (e : exn) : failure_class :=
  match e with
  | KeyError _ => MissingConfiguration
  | ClientError _ _ => LookupFailure
  end.

(** Calls into boto3, in program order. *)
Inductive event : Type :=
| ClientCreated (service : string)
| GetParameter (Name : string) (WithDecryption : bool).

Definition is_lookup (e : event) : bool :=
  match e with
  | GetParameter _ _ => true
  | ClientCreated _ => false
  end.

(** The remote lookups among the calls of a log. *)
Definition lookups (l : list event) : list event := List.filter is_lookup l.

Record World : Type := mkWorld {
  environ : gmap string string;
  ssm : ParameterStore;
  calls : list event
}.

(** [w] after the calls [evs]: same environment, same store. *)
Definition after (w : World) (evs : list event) : World :=
  {| environ := environ w; ssm := ssm w; calls := calls w ++ evs |}.

Definition log (e : event) (w : World) : World := after w [e].

(** ** The monad of the program: state over [World], exceptions [exn] *)

Definition M (A : Type) : Type := World → (exn + A) * World.

Definition ret {A} (a : A) : M A := λ w, (inr a, w).

Definition raise {A} (e : exn) : M A := λ w, (inl e, w).

Definition bind {A B} (m : M A) (k : A → M B) : M B :=
  λ w, match m w with
       | (inr a, w') => k a w'
       | (inl e, w') => (inl e, w')
       end.

Notation "x <- m ;; k" := (bind m (λ x, k))
  (at level 100, m at next level, right associativity).

(** [os.environ[key]] *)
Definition environ_get (key : string) : M string :=
  λ w, match environ w !! key with
       | Some v => ret v w
       | None => raise (KeyError key) w
       end.

(** A boto3 client handle. *)
Record Client : Type := mkClient { service_name : string }.

(** [boto3.client(service)]: the handle is built from the ambient
    credentials of the container role; no request is sent to the parameter
    store. *)
Definition boto3_client (service : string) : M Client :=
  λ w, (inr (mkClient service), log (ClientCreated service) w).

(** [client.get_parameter(Name=..., WithDecryption=...)] *)
Definition get_parameter (client : Client) (Name : string)
    (WithDecryption : bool) : M GetParameterResult :=
  λ w, let w' := log (GetParameter Name WithDecryption) w in
       match store_get_parameter (ssm w) Name WithDecryption with
       | inr r => ret r w'
       | inl f => raise (ClientError Name f) w'
       end.

(** ** The program *)

(** [def ssm_secret(path, prefix = "ssm_sdk://")] *)
Definition ssm_secret (path : string) (prefix : string) : M string :=
  client <- boto3_client "ssm" ;;
  let prefix_len := String.length prefix in
  v <- environ_get "SECRET_SDK" ;;
  secret <-
    (if String.eqb (slice_to prefix_len v) prefix then
       name <- environ_get "SECRET_SDK" ;;
       result <- get_parameter client (slice_from prefix_len name) true ;;
       ret (EntryValue (ResultParameter result))
     else
       environ_get "SECRET_SDK") ;;
  ret secret.

(** The default of the [prefix] parameter, and a call that omits it. *)
Definition default_prefix : string := "ssm_sdk://".

Definition ssm_secret_default (path : string) : M string :=
  ssm_secret path default_prefix.

(** [@app.route("/") def hello()] *)
Definition hello : M string :=
  arg1 <- environ_get "SECRET_SDK" ;;
  arg2 <- environ_get "SECRET_SDK_PREFIX" ;;
  secret <- ssm_secret arg1 arg2 ;;
  let section1 := "SDK decrypted: " +:+ secret in
  env_secret <- environ_get "SECRET" ;;
  let section2 := "Ssn-env decrypted: " +:+ env_secret in
  ret (section1 +:+ section2).

(** ** Observing a run *)

Definition result {A} (m : M A) (w : World) : exn + A := fst (m w).

Definition final {A} (m : M A) (w : World) : World := snd (m w).

(** The calls a run adds to the log. *)
Definition performed {A} (m : M A) (w : World) : list event :=
  drop (length (calls w)) (calls (final m w)).

(** The [n+1]-th of a sequence of calls of [m], each started in the world
    the previous one left. *)
Fixpoint nth_call {A} (n : nat) (m : M A) (w : World) : (exn + A) * World :=
  match n with
  | O => m w
  | S k => nth_call k m (final m w)
  end.

(** The outcome of the lookup of [name], as [ssm_secret] returns it. *)
Definition lookup_outcome (w : World) (name : string) : exn + string :=
  match store_get_parameter (ssm w) name true with
  | inr r => inr (EntryValue (ResultParameter r))
  | inl f => inl (ClientError name f)
  end.

(** The body [hello] builds from the resolved secret and [SECRET]. *)
Definition body_of (secret env_secret : string) : string :=
  "SDK decrypted: " +:+ secret +:+ "Ssn-env decrypted: " +:+ env_secret.

(** What the specification promises of a request that lacks a required
    variable: it fails with a missing-configuration error and no remote
    lookup has been made. *)
Definition fails_before_any_lookup (w : World) : Prop :=
  (∃ e, result hello w = inl e ∧ classify e = MissingConfiguration) ∧
  lookups (performed hello w) = [].

(** ** The resolver as the specification words it

    Section 4.1: if [value] starts with [prefix], strip the prefix and look
    the remainder up with decryption requested; otherwise return [value]
    unchanged.  It is a function of its [value] argument and of the store,
    paired with the lookups it asks for. *)
Definition resolve_spec (value prefix : string) (st : ParameterStore)
    : (exn + string) * list event :=
  if String.prefix prefix value then
    let name := slice_from (String.length prefix) value in
    (match store_get_parameter st name true with
     | inr r => inr (EntryValue (ResultParameter r))
     | inl f => inl (ClientError name f)
     end, [GetParameter name true])
  else (inr value, []).

(** The outcome of a call of [ssm_secret], from the only things it reads:
    the value of [SECRET_SDK], the prefix and the store. *)
Definition outcome_of (cfg : option string) (prefix : string)
    (st : ParameterStore) : (exn + string) * list event :=
  match cfg with
  | None => (inl (KeyError "SECRET_SDK"), [ClientCreated "ssm"])
  | Some v =>
      (fst (resolve_spec v prefix st),
       ClientCreated "ssm" :: snd (resolve_spec v prefix st))
  end.

(** ** Scenarios of the specification *)
Module Scenario.

Definition store : ParameterStore :=
  {| parameters := {[ "db/password" := mkParam "AQICAHh" "s3cr3t" ]};
     fault := None |}.

Definition env (sdk : string) : gmap string string :=
  {[ "SECRET_SDK" := sdk;
     "SECRET_SDK_PREFIX" := "ssm_sdk://";
     "SECRET" := "hunter2" ]}.

(** Scenario A: the primary value is a literal. *)
Definition literal : World :=
  {| environ := env "plain-secret"; ssm := store; calls := [] |}.

(** Scenario B: the primary value references [db/password]. *)
Definition reference : World :=
  {| environ := env "ssm_sdk://db/password"; ssm := store; calls := [] |}.

(** Scenario C: the primary value references a parameter that is not
    there. *)
Definition dangling : World :=
  {| environ := env "ssm_sdk://db/missing"; ssm := store; calls := [] |}.

(** Scenario B without the secondary secret. *)
Definition no_secondary : World :=
  {| environ := delete "SECRET" (env "ssm_sdk://db/password");
     ssm := store; calls := [] |}.

End Scenario.

(** ** Edge worlds *)
Module Edge.

(** [SECRET_SDK] is not set; the other two variables are. *)
Definition unset : World :=
  {| environ := delete "SECRET_SDK" (Scenario.env "plain-secret");
     ssm := Scenario.store; calls := [] |}.

(** [SECRET_SDK] is the prefix and nothing more. *)
Definition bare_prefix : World :=
  {| environ := Scenario.env "ssm_sdk://"; ssm := Scenario.store;
     calls := [] |}.

(** Scenario B in a process with another variable set and earlier calls in
    the log. *)
Definition noisy : World :=
  {| environ := <["AWS_REGION" := "eu-west-1"]>
                  (Scenario.env "ssm_sdk://db/password");
     ssm := Scenario.store;
     calls := [ClientCreated "ssm"; GetParameter "db/password" true] |}.

(** Scenario B with the store refusing access. *)
Definition denied : World :=
  {| environ := Scenario.env "ssm_sdk://db/password";
     ssm := {| parameters := parameters Scenario.store;
               fault := Some AccessDeniedException |};
     calls := [] |}.

End Edge.

Example scenario_A :
  hello Scenario.literal
  = (inr "SDK decrypted: plain-secretSsn-env decrypted: hunter2",
     after Scenario.literal [ClientCreated "ssm"]).
Proof. vm_compute. reflexivity. Qed.

Example scenario_B :
  hello Scenario.reference
  = (inr "SDK decrypted: s3cr3tSsn-env decrypted: hunter2",
     after Scenario.reference
       [ClientCreated "ssm"; GetParameter "db/password" true]).
Proof. vm_compute. reflexivity. Qed.

Example scenario_C :
  hello Scenario.dangling
  = (inl (ClientError "db/missing" ParameterNotFound),
     after Scenario.dangling
       [ClientCreated "ssm"; GetParameter "db/missing" true]).
Proof. vm_compute. reflexivity. Qed.

Example default_prefix_call :
  result (ssm_secret_default "ignored") Scenario.reference = inr "s3cr3t".
Proof. vm_compute. reflexivity. Qed.

(** ** Facts about slices *)
Section SliceFacts.

Implicit Types (p s r : string) (n : nat).

Lemma append_assoc (a b c : string) : (a +:+ b) +:+ c = a +:+ (b +:+ c).
Proof.
  induction a as [|x a IH]; [reflexivity|].
  change (String x ((a +:+ b) +:+ c) = String x (a +:+ (b +:+ c))).
  by rewrite IH.
Qed.

Lemma slice_to_0 s : slice_to 0 s = "".
Proof. destruct s; reflexivity. Qed.

Lemma slice_from_0 s : slice_from 0 s = s.
Proof. destruct s; reflexivity. Qed.

Lemma slice_to_app p r : slice_to (String.length p) (p +:+ r) = p.
Proof.
  induction p as [|c p IH].
  - apply slice_to_0.
  - simpl. by rewrite IH.
Qed.

Lemma slice_from_app p r : slice_from (String.length p) (p +:+ r) = r.
Proof.
  induction p as [|c p IH]; [apply slice_from_0 | exact IH].
Qed.

(** A string is its first [n] characters followed by the rest. *)
Lemma slice_to_from n s : slice_to n s +:+ slice_from n s = s.
Proof.
  revert s; induction n as [|n IH]; intros [|c s]; simpl; try reflexivity.
  change (String c (slice_to n s +:+ slice_from n s) = String c s).
  by rewrite IH.
Qed.

Lemma slice_to_length n s :
  String.length (slice_to n s) = Nat.min n (String.length s).
Proof.
  revert s; induction n as [|n IH]; intros [|c s]; simpl; try reflexivity.
  by rewrite IH.
Qed.

Lemma slice_to_short n s : (String.length s ≤ n)%nat → slice_to n s = s.
Proof.
  revert s; induction n as [|n IH]; intros [|c s]; simpl; try reflexivity.
  - lia.
  - intros H. rewrite IH; [reflexivity | lia].
Qed.

(** The comparison of line 10 is the starts-with test. *)
Lemma prefix_test_true p s :
  String.eqb (slice_to (String.length p) s) p = true ↔ starts_with p s.
Proof.
  rewrite String.eqb_eq. split.
  - intros H. exists (slice_from (String.length p) s).
    rewrite <- H at 1. symmetry. apply slice_to_from.
  - intros [r ->]. apply slice_to_app.
Qed.

Lemma prefix_test_false p s :
  String.eqb (slice_to (String.length p) s) p = false ↔ ¬ starts_with p s.
Proof.
  rewrite <- prefix_test_true. destruct (String.eqb _ p); split; intros H.
  - discriminate.
  - by destruct H.
  - discriminate.
  - reflexivity.
Qed.

Lemma prefix_test_short p s :
  (String.length s < String.length p)%nat →
  String.eqb (slice_to (String.length p) s) p = false.
Proof.
  intros Hlt. apply String.eqb_neq. intros Heq.
  apply (f_equal String.length) in Heq.
  rewrite slice_to_length in Heq. lia.
Qed.

(** The slice comparison agrees with the library's prefix test. *)
Lemma prefix_test_library p s :
  String.eqb (slice_to (String.length p) s) p = String.prefix p s.
Proof.
  revert p; induction s as [|b s IH]; intros [|a p]; simpl; try reflexivity.
  destruct (Ascii.ascii_dec a b) as [->|Hne].
  - rewrite Ascii.eqb_refl. apply IH.
  - assert (Ascii.eqb b a = false) as ->; [|reflexivity].
    apply Ascii.eqb_neq. congruence.
Qed.

End SliceFacts.

(** ** Running the primitives *)
Section Runs.

Implicit Types (w : World) (evs : list event).

Lemma after_nil w : after w [] = w.
Proof. destruct w; unfold after; simpl. by rewrite app_nil_r. Qed.

Lemma after_after w evs evs' : after (after w evs) evs' = after w (evs ++ evs').
Proof. unfold after; simpl. by rewrite app_assoc. Qed.

(** What a run performed, read off its final world. *)
Lemma performed_after {A} (m : M A) w evs :
  final m w = after w evs → performed m w = evs.
Proof.
  unfold performed. intros ->. simpl. apply drop_app_length.
Qed.

Lemma bind_ok {A B} (m : M A) (k : A → M B) w a w' :
  m w = (inr a, w') → bind m k w = k a w'.
Proof. unfold bind. by intros ->. Qed.

Lemma bind_raise {A B} (m : M A) (k : A → M B) w e w' :
  m w = (inl e, w') → bind m k w = (inl e, w').
Proof. unfold bind. by intros ->. Qed.

Lemma bind_ret {A} (m : M A) w : bind m ret w = m w.
Proof. unfold bind, ret. by destruct (m w) as [[e|a] w']. Qed.

Lemma environ_get_set key v w :
  environ w !! key = Some v → environ_get key w = (inr v, w).
Proof. unfold environ_get. by intros ->. Qed.

Lemma environ_get_unset key w :
  environ w !! key = None → environ_get key w = (inl (KeyError key), w).
Proof. unfold environ_get. by intros ->. Qed.

Lemma get_parameter_run client name dec w :
  get_parameter client name dec w
  = (match store_get_parameter (ssm w) name dec with
     | inr r => inr r
     | inl f => inl (ClientError name f)
     end, after w [GetParameter name dec]).
Proof.
  unfold get_parameter. by destruct (store_get_parameter (ssm w) name dec).
Qed.

End Runs.

(** Chains of [bind] are run one step at a time. *)
Ltac run_step :=
  first
    [ erewrite bind_ok by (apply environ_get_set; simpl; eassumption)
    | erewrite bind_raise by (apply environ_get_unset; simpl; eassumption)
    | erewrite environ_get_set by (simpl; eassumption)
    | erewrite environ_get_unset by (simpl; eassumption) ].

(** ** Running the resolver *)
Section Resolver.

Variables (path prefix : string) (w : World).

(** [SECRET_SDK] unset: the client is created, then the read fails. *)
Lemma ssm_secret_unset :
  environ w !! "SECRET_SDK" = None →
  ssm_secret path prefix w
  = (inl (KeyError "SECRET_SDK"), after w [ClientCreated "ssm"]).
Proof.
  intros Hv. unfold ssm_secret.
  erewrite bind_ok by reflexivity.
  cbv zeta. by run_step.
Qed.

(** The reference branch. *)
Lemma ssm_secret_reference v :
  environ w !! "SECRET_SDK" = Some v →
  String.eqb (slice_to (String.length prefix) v) prefix = true →
  let name := slice_from (String.length prefix) v in
  ssm_secret path prefix w
  = (lookup_outcome w name,
     after w [ClientCreated "ssm"; GetParameter name true]).
Proof.
  intros Hv Htest name. unfold ssm_secret.
  erewrite bind_ok by reflexivity.
  cbv zeta. run_step. rewrite Htest, bind_ret. run_step. fold name.
  unfold bind. rewrite get_parameter_run. unfold log, lookup_outcome.
  rewrite after_after. simpl.
  by destruct (store_get_parameter (ssm w) name true) as [f|r].
Qed.

(** The literal branch. *)
Lemma ssm_secret_literal v :
  environ w !! "SECRET_SDK" = Some v →
  String.eqb (slice_to (String.length prefix) v) prefix = false →
  ssm_secret path prefix w = (inr v, after w [ClientCreated "ssm"]).
Proof.
  intros Hv Htest. unfold ssm_secret.
  erewrite bind_ok by reflexivity.
  cbv zeta. run_step. rewrite Htest, bind_ret. by run_step.
Qed.

(** [ssm_secret] computes what the specification's resolver computes on
    the value of [SECRET_SDK], whatever [path] is. *)
Lemma ssm_secret_refines v :
  environ w !! "SECRET_SDK" = Some v →
  ssm_secret path prefix w
  = (fst (resolve_spec v prefix (ssm w)),
     after w (ClientCreated "ssm" :: snd (resolve_spec v prefix (ssm w)))).
Proof.
  intros Hv. unfold resolve_spec. rewrite <- prefix_test_library.
  destruct (String.eqb (slice_to (String.length prefix) v) prefix) eqn:Ht.
  - by apply ssm_secret_reference.
  - by apply ssm_secret_literal.
Qed.

Lemma ssm_secret_outcome :
  ssm_secret path prefix w
  = (fst (outcome_of (environ w !! "SECRET_SDK") prefix (ssm w)),
     after w (snd (outcome_of (environ w !! "SECRET_SDK") prefix (ssm w)))).
Proof.
  destruct (environ w !! "SECRET_SDK") as [v|] eqn:Hv; simpl.
  - by apply ssm_secret_refines.
  - by apply ssm_secret_unset.
Qed.

(** Neither the environment nor the store is written. *)
Lemma ssm_secret_final :
  ∃ evs, final (ssm_secret path prefix) w = after w evs.
Proof. unfold final. rewrite ssm_secret_outcome. eauto. Qed.

End Resolver.

(** The result depends on the world only through [SECRET_SDK] and the
    store. *)
Lemma ssm_secret_agree (w1 w2 : World) (path1 path2 prefix : string) :
  environ w1 !! "SECRET_SDK" = environ w2 !! "SECRET_SDK" →
  ssm w1 = ssm w2 →
  result (ssm_secret path1 prefix) w1 = result (ssm_secret path2 prefix) w2 ∧
  performed (ssm_secret path1 prefix) w1
  = performed (ssm_secret path2 prefix) w2.
Proof.
  intros Henv Hssm.
  pose proof (ssm_secret_outcome path1 prefix w1) as H1.
  pose proof (ssm_secret_outcome path2 prefix w2) as H2.
  rewrite <- Henv, <- Hssm in H2.
  rewrite (performed_after _ w1 _ (f_equal snd H1)).
  rewrite (performed_after _ w2 _ (f_equal snd H2)).
  unfold result. by rewrite H1, H2.
Qed.

(** ** Running the handler *)
Section Handler.

Variable w : World.

(** With the two arguments of the call set, [hello] runs the resolver on
    them and then reads [SECRET]. *)
Lemma hello_run v p :
  environ w !! "SECRET_SDK" = Some v →
  environ w !! "SECRET_SDK_PREFIX" = Some p →
  hello w
  = match ssm_secret v p w with
    | (inr secret, w') =>
        match environ w !! "SECRET" with
        | Some s => (inr (body_of secret s), w')
        | None => (inl (KeyError "SECRET"), w')
        end
    | (inl e, w') => (inl e, w')
    end.
Proof.
  intros Hv Hp. unfold hello. do 2 run_step.
  destruct (ssm_secret_final v p w) as [evs Hfin]. unfold final in Hfin.
  unfold bind at 1.
  destruct (ssm_secret v p w) as [[e|secret] w'] eqn:Hrun; [reflexivity|].
  simpl in Hfin. subst w'. cbv zeta.
  destruct (environ w !! "SECRET") as [s|] eqn:Hs.
  - run_step. unfold ret, body_of. by rewrite append_assoc.
  - by run_step.
Qed.

Lemma hello_no_primary :
  environ w !! "SECRET_SDK" = None →
  hello w = (inl (KeyError "SECRET_SDK"), w).
Proof. intros Hv. unfold hello. by run_step. Qed.

Lemma hello_no_prefix v :
  environ w !! "SECRET_SDK" = Some v →
  environ w !! "SECRET_SDK_PREFIX" = None →
  hello w = (inl (KeyError "SECRET_SDK_PREFIX"), w).
Proof. intros Hv Hp. unfold hello. run_step. by run_step. Qed.

End Handler.

(** * The claims *)

(** C1. The claim: for every [v] that does not start with the prefix,
    [ssm_secret v prefix] returns [v] and looks nothing up.  The code reads
    [SECRET_SDK] instead of its argument: called on the literal
    ["plain-secret"] while [SECRET_SDK] holds a reference, it performs the
    lookup of that reference and returns the stored secret. *)
Theorem ssm_secret_literal_argument_ignored :
  ¬ starts_with "ssm_sdk://" "plain-secret" ∧
  result (ssm_secret "plain-secret" "ssm_sdk://") Scenario.reference
  = inr "s3cr3t" ∧
  performed (ssm_secret "plain-secret" "ssm_sdk://") Scenario.reference
  = [ClientCreated "ssm"; GetParameter "db/password" true].
Proof.
  split; [|split].
  - apply prefix_test_false. vm_compute. reflexivity.
  - vm_compute. reflexivity.
  - vm_compute. reflexivity.
Qed.

(** C2. The claim: for every [v = prefix + name], [ssm_secret v prefix]
    returns the decrypted value stored under [name] and the lookup is made
    with exactly [name].  The code reads [SECRET_SDK] instead of its
    argument: called on a reference to [db/password], which the store holds,
    while [SECRET_SDK] is a literal, it returns that literal and makes no
    lookup. *)
Theorem ssm_secret_reference_argument_ignored :
  lookup_outcome Scenario.literal "db/password" = inr "s3cr3t" ∧
  result (ssm_secret ("ssm_sdk://" +:+ "db/password") "ssm_sdk://")
    Scenario.literal
  = inr "plain-secret" ∧
  performed (ssm_secret ("ssm_sdk://" +:+ "db/password") "ssm_sdk://")
    Scenario.literal
  = [ClientCreated "ssm"].
Proof. repeat split; vm_compute; reflexivity. Qed.

(** C3. Whenever [hello] answers, and it does so exactly when the three
    variables are set and the resolver returns on the primary value, the
    body is ["SDK decrypted: "], the resolver's result, ["Ssn-env
    decrypted: "] and the value of [SECRET], in that order. *)
Theorem hello_body (w : World) (body : string) :
  result hello w = inr body ↔
  ∃ v p s r,
    environ w !! "SECRET_SDK" = Some v ∧
    environ w !! "SECRET_SDK_PREFIX" = Some p ∧
    environ w !! "SECRET" = Some s ∧
    result (ssm_secret v p) w = inr r ∧
    body = "SDK decrypted: " +:+ r +:+ "Ssn-env decrypted: " +:+ s.
Proof.
  unfold result. split.
  - destruct (environ w !! "SECRET_SDK") as [v|] eqn:Hv;
      [|by rewrite hello_no_primary].
    destruct (environ w !! "SECRET_SDK_PREFIX") as [p|] eqn:Hp;
      [|by rewrite (hello_no_prefix w v)].
    rewrite (hello_run w v p Hv Hp).
    destruct (ssm_secret v p w) as [[e|r] w'] eqn:Hrun; [done|].
    destruct (environ w !! "SECRET") as [s|] eqn:Hs; [|done].
    simpl. intros [= <-]. exists v, p, s, r. by rewrite Hrun.
  - intros (v & p & s & r & Hv & Hp & Hs & Hr & ->).
    rewrite (hello_run w v p Hv Hp), Hs. unfold body_of.
    destruct (ssm_secret v p w) as [[e|r'] w']; simpl in *; congruence.
Qed.

(** C4, as stated, fails: with [SECRET] absent and [SECRET_SDK] a reference,
    the parameter is fetched before [os.environ['SECRET']] raises. *)
Lemma secondary_absent_lookup_first :
  environ Scenario.no_secondary !! "SECRET" = None ∧
  result hello Scenario.no_secondary = inl (KeyError "SECRET") ∧
  lookups (performed hello Scenario.no_secondary)
  = [GetParameter "db/password" true] ∧
  ¬ fails_before_any_lookup Scenario.no_secondary.
Proof.
  repeat split; try (vm_compute; reflexivity).
  intros [_ H]. vm_compute in H. discriminate.
Qed.

(** C4, amended.  When the primary value or the prefix marker is absent the
    request fails with MissingConfiguration and boto3 has not been called at
    all.  When only [SECRET] is absent the resolver runs first: on a literal
    primary value the request fails with MissingConfiguration and no lookup;
    on a reference the lookup is made first, and the request then fails with
    the lookup's error, or with MissingConfiguration when the lookup
    succeeded. *)
Theorem hello_missing_configuration (w : World) :
  (environ w !! "SECRET_SDK" = None ∨
   environ w !! "SECRET_SDK_PREFIX" = None →
   fails_before_any_lookup w ∧ performed hello w = []) ∧
  (∀ v p,
     environ w !! "SECRET_SDK" = Some v →
     environ w !! "SECRET_SDK_PREFIX" = Some p →
     environ w !! "SECRET" = None →
     (¬ starts_with p v → fails_before_any_lookup w) ∧
     (starts_with p v →
      let name := slice_from (String.length p) v in
      lookups (performed hello w) = [GetParameter name true] ∧
      result hello w = match lookup_outcome w name with
                       | inr _ => inl (KeyError "SECRET")
                       | inl e => inl e
                       end)).
Proof.
  split.
  - intros Habs.
    assert (∃ key, hello w = (inl (KeyError key), w)) as [key Hrun].
    { destruct (environ w !! "SECRET_SDK") as [v|] eqn:Hv.
      - destruct Habs as [|Hp]; [done|].
        eexists. by apply (hello_no_prefix w v).
      - eexists. by apply hello_no_primary. }
    assert (performed hello w = []) as Hnone.
    { apply performed_after. unfold final. rewrite Hrun. simpl.
      by rewrite after_nil. }
    unfold fails_before_any_lookup, result. rewrite Hnone, Hrun. simpl.
    split; [split|]; eauto.
  - intros v p Hv Hp Hs. split.
    + intros Hlit%prefix_test_false.
      pose proof (hello_run w v p Hv Hp) as Hrun.
      rewrite (ssm_secret_literal v p w v Hv Hlit), Hs in Hrun.
      unfold fails_before_any_lookup, result.
      rewrite (performed_after hello w [ClientCreated "ssm"]);
        [|by unfold final; rewrite Hrun].
      rewrite Hrun. simpl. eauto.
    + intros Href%prefix_test_true name.
      pose proof (hello_run w v p Hv Hp) as Hrun.
      rewrite (ssm_secret_reference v p w v Hv Href), Hs in Hrun.
      fold name in Hrun.
      rewrite (performed_after hello w
                 [ClientCreated "ssm"; GetParameter name true]).
      * unfold result. rewrite Hrun.
        by destruct (lookup_outcome w name).
      * unfold final. rewrite Hrun. by destruct (lookup_outcome w name).
Qed.

Lemma hello_missing_configuration_witness :
  environ Scenario.no_secondary !! "SECRET" = None ∧
  starts_with "ssm_sdk://" "ssm_sdk://db/password" ∧
  lookups (performed hello Scenario.no_secondary)
  = [GetParameter "db/password" true] ∧
  result hello Scenario.no_secondary = inl (KeyError "SECRET").
Proof.
  assert (starts_with "ssm_sdk://" "ssm_sdk://db/password") as Href
    by (exists "db/password"; reflexivity).
  split; [vm_compute; reflexivity|]. split; [exact Href|].
  destruct (hello_missing_configuration Scenario.no_secondary) as [_ H].
  destruct (H "ssm_sdk://db/password" "ssm_sdk://") as [_ H2];
    [vm_compute; reflexivity ..|].
  exact (H2 Href).
Defined.

(** C5. When the configuration value is a reference [prefix + name] and the
    lookup of [name] fails, for whatever reason [f], the resolver raises the
    lookup's error after that one lookup, and [hello] raises the same error:
    no body is returned. *)
Theorem lookup_failure_propagates (w : World) (prefix name : string)
    (f : ssm_fault) :
  environ w !! "SECRET_SDK" = Some (prefix +:+ name) →
  store_get_parameter (ssm w) name true = inl f →
  classify (ClientError name f) = LookupFailure ∧
  (∀ path,
     ssm_secret path prefix w
     = (inl (ClientError name f),
        after w [ClientCreated "ssm"; GetParameter name true])) ∧
  (environ w !! "SECRET_SDK_PREFIX" = Some prefix →
   hello w
   = (inl (ClientError name f),
      after w [ClientCreated "ssm"; GetParameter name true])).
Proof.
  intros Hv Hf. split; [reflexivity|].
  assert (∀ path,
     ssm_secret path prefix w
     = (inl (ClientError name f),
        after w [ClientCreated "ssm"; GetParameter name true])) as Hres.
  { intros path.
    rewrite (ssm_secret_reference path prefix w _ Hv).
    - rewrite slice_from_app. unfold lookup_outcome. by rewrite Hf.
    - apply prefix_test_true. by exists name. }
  split; [exact Hres|].
  intros Hp. by rewrite (hello_run w _ _ Hv Hp), Hres.
Qed.

Lemma lookup_failure_propagates_witness :
  environ Scenario.dangling !! "SECRET_SDK"
  = Some ("ssm_sdk://" +:+ "db/missing") ∧
  store_get_parameter (ssm Scenario.dangling) "db/missing" true
  = inl ParameterNotFound ∧
  hello Scenario.dangling
  = (inl (ClientError "db/missing" ParameterNotFound),
     after Scenario.dangling
       [ClientCreated "ssm"; GetParameter "db/missing" true]).
Proof.
  split; [vm_compute; reflexivity|]. split; [vm_compute; reflexivity|].
  destruct (lookup_failure_propagates Scenario.dangling "ssm_sdk://"
              "db/missing" ParameterNotFound) as (_ & _ & H);
    [vm_compute; reflexivity ..|].
  apply H. vm_compute. reflexivity.
Defined.

(** C6. A call of the resolver is determined by the configuration value
    ([SECRET_SDK] as the environment holds it), the prefix and the store:
    in two worlds that agree on these, whatever their logs and whatever
    [path] is passed, it returns the same result after the same calls.  It
    leaves the environment and the store as they were. *)
Theorem resolution_pure (w1 w2 : World) (path1 path2 prefix : string) :
  environ w1 !! "SECRET_SDK" = environ w2 !! "SECRET_SDK" →
  ssm w1 = ssm w2 →
  result (ssm_secret path1 prefix) w1 = result (ssm_secret path2 prefix) w2 ∧
  performed (ssm_secret path1 prefix) w1
  = performed (ssm_secret path2 prefix) w2 ∧
  environ (final (ssm_secret path1 prefix) w1) = environ w1 ∧
  ssm (final (ssm_secret path1 prefix) w1) = ssm w1.
Proof.
  intros Henv Hssm.
  destruct (ssm_secret_agree w1 w2 path1 path2 prefix Henv Hssm) as [Hr Hp].
  destruct (ssm_secret_final path1 prefix w1) as [evs ->].
  by rewrite Hr, Hp.
Qed.

Lemma resolution_pure_witness :
  environ Scenario.reference !! "SECRET_SDK"
  = environ (after Scenario.reference [ClientCreated "ssm"]) !! "SECRET_SDK" ∧
  result (ssm_secret "a" "ssm_sdk://") Scenario.reference
  = result (ssm_secret "b" "ssm_sdk://")
      (after Scenario.reference [ClientCreated "ssm"]).
Proof.
  split; [vm_compute; reflexivity|].
  apply (resolution_pure Scenario.reference
           (after Scenario.reference [ClientCreated "ssm"]));
    vm_compute; reflexivity.
Defined.

(** C7. Calls repeated with the same arguments against an environment and
    a store that nothing else changes all return what the first returned,
    and leave the environment and the store as they found them. *)
Theorem resolution_idempotent (path prefix : string) (w : World) (n : nat) :
  fst (nth_call n (ssm_secret path prefix) w)
  = result (ssm_secret path prefix) w ∧
  environ (snd (nth_call n (ssm_secret path prefix) w)) = environ w ∧
  ssm (snd (nth_call n (ssm_secret path prefix) w)) = ssm w.
Proof.
  revert w. induction n as [|n IH]; intros w.
  - destruct (ssm_secret_final path prefix w) as [evs Hfin].
    unfold final in Hfin. simpl. by rewrite Hfin.
  - destruct (ssm_secret_final path prefix w) as [evs Hfin].
    simpl. rewrite Hfin.
    destruct (IH (after w evs)) as (Hr & He & Hs).
    rewrite Hr, He, Hs. split; [|done].
    by apply ssm_secret_agree.
Qed.

(** C8. The [path] argument of [ssm_secret] is dead: two calls that differ
    only in it run alike, because the value resolved is the one read from
    [SECRET_SDK]. *)
Theorem ssm_secret_path_dead (v1 v2 prefix : string) (w : World) :
  ssm_secret v1 prefix w = ssm_secret v2 prefix w ∧
  result (ssm_secret v1 prefix) w
  = fst (outcome_of (environ w !! "SECRET_SDK") prefix (ssm w)).
Proof.
  split.
  - by rewrite !ssm_secret_outcome.
  - unfold result. by rewrite ssm_secret_outcome.
Qed.

(** C9. With the empty prefix the test of line 10 succeeds on every value,
    and the whole value is looked up as a parameter name, with decryption. *)
Theorem empty_prefix_always_reference (w : World) (path v : string) :
  environ w !! "SECRET_SDK" = Some v →
  String.eqb (slice_to (String.length "") v) "" = true ∧
  ssm_secret path "" w
  = (lookup_outcome w v,
     after w [ClientCreated "ssm"; GetParameter v true]).
Proof.
  intros Hv.
  assert (String.eqb (slice_to (String.length "") v) "" = true) as Htest.
  { change (String.length "") with 0. by rewrite slice_to_0. }
  split; [exact Htest|].
  rewrite (ssm_secret_reference path "" w v Hv Htest).
  change (String.length "") with 0. by rewrite slice_from_0.
Qed.

Lemma empty_prefix_always_reference_witness :
  environ Scenario.literal !! "SECRET_SDK" = Some "plain-secret" ∧
  ssm_secret "plain-secret" "" Scenario.literal
  = (inl (ClientError "plain-secret" ParameterNotFound),
     after Scenario.literal
       [ClientCreated "ssm"; GetParameter "plain-secret" true]).
Proof.
  split; [vm_compute; reflexivity|].
  destruct (empty_prefix_always_reference Scenario.literal "plain-secret"
              "plain-secret") as [_ H]; [vm_compute; reflexivity|].
  exact H.
Defined.

(** C10. On a value shorter than the prefix the slice is the whole value,
    the comparison is false, and the value is returned with no lookup. *)
Theorem short_value_literal (w : World) (path prefix v : string) :
  environ w !! "SECRET_SDK" = Some v →
  (String.length v < String.length prefix)%nat →
  slice_to (String.length prefix) v = v ∧
  String.eqb (slice_to (String.length prefix) v) prefix = false ∧
  ssm_secret path prefix w = (inr v, after w [ClientCreated "ssm"]) ∧
  lookups (performed (ssm_secret path prefix) w) = [].
Proof.
  intros Hv Hlen.
  pose proof (prefix_test_short prefix v Hlen) as Htest.
  pose proof (ssm_secret_literal path prefix w v Hv Htest) as Hrun.
  split; [apply slice_to_short; lia|]. split; [exact Htest|].
  split; [exact Hrun|].
  rewrite (performed_after _ w [ClientCreated "ssm"]); [reflexivity|].
  unfold final. by rewrite Hrun.
Qed.

Lemma short_value_literal_witness :
  environ Scenario.literal !! "SECRET_SDK" = Some "plain-secret" ∧
  (String.length "plain-secret" < String.length "ssm_sdk://db/password")%nat ∧
  ssm_secret "plain-secret" "ssm_sdk://db/password" Scenario.literal
  = (inr "plain-secret", after Scenario.literal [ClientCreated "ssm"]).
Proof.
  split; [vm_compute; reflexivity|]. split; [simpl; lia|].
  destruct (short_value_literal Scenario.literal "plain-secret"
              "ssm_sdk://db/password" "plain-secret") as (_ & _ & H & _);
    [vm_compute; reflexivity | simpl; lia | exact H].
Defined.

(** * Further properties of the code *)

(** ** Helper facts *)

Lemma append_empty_r (s : string) : s +:+ "" = s.
Proof.
  induction s as [|c s IH]; [reflexivity|].
  change (String c (s +:+ "") = String c s). by rewrite IH.
Qed.

Lemma slice_from_all (s : string) : slice_from (String.length s) s = "".
Proof. rewrite <- (append_empty_r s) at 2. apply slice_from_app. Qed.

Lemma prefix_test_refl (p : string) :
  String.eqb (slice_to (String.length p) p) p = true.
Proof. apply prefix_test_true. exists "". by rewrite append_empty_r. Qed.

Lemma ssm_secret_performed (path prefix : string) (w : World) :
  performed (ssm_secret path prefix) w
  = snd (outcome_of (environ w !! "SECRET_SDK") prefix (ssm w)).
Proof.
  apply performed_after. unfold final. by rewrite ssm_secret_outcome.
Qed.

(** At most one lookup, and it asks for decryption. *)
Lemma outcome_lookups (cfg : option string) (prefix : string)
    (st : ParameterStore) :
  lookups (snd (outcome_of cfg prefix st)) = [] ∨
  ∃ name, lookups (snd (outcome_of cfg prefix st)) = [GetParameter name true].
Proof.
  destruct cfg as [v|]; [|by left].
  simpl. unfold resolve_spec.
  destruct (String.prefix prefix v); [right; eauto | by left].
Qed.

(** The world [hello] leaves is the one the resolver left. *)
Lemma hello_final_resolver (w : World) (v p : string) :
  environ w !! "SECRET_SDK" = Some v →
  environ w !! "SECRET_SDK_PREFIX" = Some p →
  final hello w = final (ssm_secret v p) w.
Proof.
  intros Hv Hp. unfold final. rewrite (hello_run w v p Hv Hp).
  destruct (ssm_secret v p w) as [[e|secret] w']; [done|].
  by destruct (environ w !! "SECRET").
Qed.

Lemma hello_final_unset (w : World) :
  environ w !! "SECRET_SDK" = None ∨
  environ w !! "SECRET_SDK_PREFIX" = None →
  final hello w = w.
Proof.
  intros Habs. unfold final.
  destruct (environ w !! "SECRET_SDK") as [v|] eqn:Hv.
  - destruct Habs as [|Hp]; [done|]. by rewrite (hello_no_prefix w v).
  - by rewrite hello_no_primary.
Qed.

Lemma hello_performed (w : World) :
  performed hello w
  = match environ w !! "SECRET_SDK", environ w !! "SECRET_SDK_PREFIX" with
    | Some v, Some p => performed (ssm_secret v p) w
    | _, _ => []
    end.
Proof.
  destruct (environ w !! "SECRET_SDK") as [v|] eqn:Hv;
    [destruct (environ w !! "SECRET_SDK_PREFIX") as [p|] eqn:Hp|].
  - unfold performed. by rewrite (hello_final_resolver w v p).
  - apply performed_after. rewrite hello_final_unset; [|by right].
    by rewrite after_nil.
  - apply performed_after. rewrite hello_final_unset; [|by left].
    by rewrite after_nil.
Qed.

(** ** The resolver *)

(** X1. When [SECRET_SDK] holds a value that does not start with the
    prefix, [ssm_secret] returns that value unchanged, whatever [path] it is
    given, and only creates the client. *)
Theorem configured_literal_returned (w : World) (path prefix v : string) :
  environ w !! "SECRET_SDK" = Some v →
  ¬ starts_with prefix v →
  ssm_secret path prefix w = (inr v, after w [ClientCreated "ssm"]).
Proof.
  intros Hv Hlit. apply ssm_secret_literal; [exact Hv|].
  by apply prefix_test_false.
Qed.

Lemma configured_literal_returned_witness :
  environ Scenario.literal !! "SECRET_SDK" = Some "plain-secret" ∧
  ¬ starts_with "ssm_sdk://" "plain-secret" ∧
  ssm_secret "ssm_sdk://db/password" "ssm_sdk://" Scenario.literal
  = (inr "plain-secret", after Scenario.literal [ClientCreated "ssm"]).
Proof.
  assert (¬ starts_with "ssm_sdk://" "plain-secret") as Hlit
    by (apply prefix_test_false; vm_compute; reflexivity).
  split; [vm_compute; reflexivity|]. split; [exact Hlit|].
  apply (configured_literal_returned Scenario.literal); [|exact Hlit].
  vm_compute. reflexivity.
Defined.

(** X2. When [SECRET_SDK] is [prefix + name], the service is reachable and
    the store holds [name], [ssm_secret] returns the decrypted value of that
    parameter, never the text as stored, after one lookup of exactly
    [name] with decryption. *)
Theorem configured_reference_decrypted (w : World)
    (path prefix name : string) (p : SsmParameter) :
  environ w !! "SECRET_SDK" = Some (prefix +:+ name) →
  fault (ssm w) = None →
  parameters (ssm w) !! name = Some p →
  ssm_secret path prefix w
  = (inr (Value p),
     after w [ClientCreated "ssm"; GetParameter name true]).
Proof.
  intros Hv Hfault Hp.
  rewrite (ssm_secret_reference path prefix w _ Hv).
  - rewrite slice_from_app. unfold lookup_outcome, store_get_parameter.
    by rewrite Hfault, Hp.
  - apply prefix_test_true. by exists name.
Qed.

Lemma configured_reference_decrypted_witness :
  parameters (ssm Scenario.reference) !! "db/password"
  = Some (mkParam "AQICAHh" "s3cr3t") ∧
  ssm_secret "plain-secret" "ssm_sdk://" Scenario.reference
  = (inr "s3cr3t",
     after Scenario.reference
       [ClientCreated "ssm"; GetParameter "db/password" true]).
Proof.
  split; [vm_compute; reflexivity|].
  apply (configured_reference_decrypted Scenario.reference "plain-secret"
           "ssm_sdk://" "db/password" (mkParam "AQICAHh" "s3cr3t"));
    vm_compute; reflexivity.
Defined.

(** X3. [ssm_secret] contacts the parameter store exactly when [SECRET_SDK]
    is set to a value that starts with the prefix. *)
Theorem lookup_iff_prefixed (w : World) (path prefix : string) :
  lookups (performed (ssm_secret path prefix) w) ≠ [] ↔
  ∃ v, environ w !! "SECRET_SDK" = Some v ∧ starts_with prefix v.
Proof.
  rewrite ssm_secret_performed.
  destruct (environ w !! "SECRET_SDK") as [v|] eqn:Hv; simpl.
  - unfold resolve_spec. rewrite <- prefix_test_library.
    destruct (String.eqb (slice_to (String.length prefix) v) prefix) eqn:Ht.
    + apply prefix_test_true in Ht. simpl. split; [eauto | done].
    + apply prefix_test_false in Ht. simpl. split; [done|].
      intros (v' & [= <-] & Hst). contradiction.
  - split; [done|]. by intros (v' & [=] & _).
Qed.

(** X4. Every call of [ssm_secret] creates the client first and then makes
    at most one lookup.  The lookup asks for decryption, and its name put
    back behind the prefix is the value of [SECRET_SDK]: the value is
    stripped of the prefix and altered in no other way. *)
Theorem resolver_calls_shape (w : World) (path prefix : string) :
  performed (ssm_secret path prefix) w = [ClientCreated "ssm"] ∨
  ∃ name,
    performed (ssm_secret path prefix) w
    = [ClientCreated "ssm"; GetParameter name true] ∧
    environ w !! "SECRET_SDK" = Some (prefix +:+ name).
Proof.
  rewrite ssm_secret_performed.
  destruct (environ w !! "SECRET_SDK") as [v|] eqn:Hv; [|by left].
  simpl. unfold resolve_spec. rewrite <- prefix_test_library.
  destruct (String.eqb (slice_to (String.length prefix) v) prefix) eqn:Ht;
    [|by left].
  right. exists (slice_from (String.length prefix) v). split; [done|].
  apply String.eqb_eq in Ht. f_equal.
  pose proof (slice_to_from (String.length prefix) v) as Hsplit.
  by rewrite Ht in Hsplit.
Qed.

(** X5. Called with [SECRET_SDK] unset, [ssm_secret] raises
    [KeyError('SECRET_SDK')], a missing-configuration error, whatever its
    arguments; the client has been created by then, and nothing has been
    looked up. *)
Theorem resolver_unset_value (w : World) (path prefix : string) :
  environ w !! "SECRET_SDK" = None →
  result (ssm_secret path prefix) w = inl (KeyError "SECRET_SDK") ∧
  classify (KeyError "SECRET_SDK") = MissingConfiguration ∧
  performed (ssm_secret path prefix) w = [ClientCreated "ssm"] ∧
  lookups (performed (ssm_secret path prefix) w) = [].
Proof.
  intros Hv. rewrite ssm_secret_performed. unfold result.
  rewrite (ssm_secret_unset path prefix w Hv), Hv. done.
Qed.

Lemma resolver_unset_value_witness :
  environ Edge.unset !! "SECRET_SDK" = None ∧
  result (ssm_secret "plain-secret" "ssm_sdk://") Edge.unset
  = inl (KeyError "SECRET_SDK").
Proof.
  split; [vm_compute; reflexivity|].
  destruct (resolver_unset_value Edge.unset "plain-secret" "ssm_sdk://")
    as [H _]; [vm_compute; reflexivity | exact H].
Defined.

(** X6. When [SECRET_SDK] is exactly the prefix, the reference branch is
    taken and the lookup is made with the empty name. *)
Theorem bare_prefix_empty_name (w : World) (path prefix : string) :
  environ w !! "SECRET_SDK" = Some prefix →
  ssm_secret path prefix w
  = (lookup_outcome w "",
     after w [ClientCreated "ssm"; GetParameter "" true]).
Proof.
  intros Hv.
  rewrite (ssm_secret_reference path prefix w prefix Hv
             (prefix_test_refl prefix)).
  by rewrite slice_from_all.
Qed.

Lemma bare_prefix_empty_name_witness :
  environ Edge.bare_prefix !! "SECRET_SDK" = Some "ssm_sdk://" ∧
  ssm_secret "ssm_sdk://" "ssm_sdk://" Edge.bare_prefix
  = (inl (ClientError "" ParameterNotFound),
     after Edge.bare_prefix [ClientCreated "ssm"; GetParameter "" true]).
Proof.
  split; [vm_compute; reflexivity|].
  apply (bare_prefix_empty_name Edge.bare_prefix "ssm_sdk://" "ssm_sdk://").
  vm_compute. reflexivity.
Defined.

(** ** The handler *)


(** X7. A request leaves the environment and the store as it found them
    and only appends to the log of boto3 calls; among the calls it makes
    there is at most one lookup, and that lookup asks for decryption. *)
Theorem handler_footprint (w : World) :
  environ (final hello w) = environ w ∧
  ssm (final hello w) = ssm w ∧
  calls (final hello w) = (calls w ++ performed hello w)%list ∧
  (lookups (performed hello w) = [] ∨
   ∃ name, lookups (performed hello w) = [GetParameter name true]).
Proof.
  assert (∃ evs, final hello w = after w evs) as [evs Hfin].
  { destruct (environ w !! "SECRET_SDK") as [v|] eqn:Hv;
      [destruct (environ w !! "SECRET_SDK_PREFIX") as [p|] eqn:Hp|].
    - rewrite (hello_final_resolver w v p Hv Hp). apply ssm_secret_final.
    - exists []. rewrite hello_final_unset; [|by right]. by rewrite after_nil.
    - exists []. rewrite hello_final_unset; [|by left]. by rewrite after_nil. }
  rewrite (performed_after hello w evs Hfin) at 1. rewrite Hfin.
  repeat split; try done.
  rewrite hello_performed.
  destruct (environ w !! "SECRET_SDK") as [v|]; [|by left].
  destruct (environ w !! "SECRET_SDK_PREFIX") as [p|]; [|by left].
  rewrite ssm_secret_performed. apply outcome_lookups.
Qed.

(** X8. A request contacts the parameter store exactly when [SECRET_SDK]
    and [SECRET_SDK_PREFIX] are both set and the first starts with the
    second; [SECRET] and the default prefix play no part. *)
Theorem handler_lookup_iff (w : World) :
  lookups (performed hello w) ≠ [] ↔
  ∃ v p,
    environ w !! "SECRET_SDK" = Some v ∧
    environ w !! "SECRET_SDK_PREFIX" = Some p ∧
    starts_with p v.
Proof.
  rewrite hello_performed.
  destruct (environ w !! "SECRET_SDK") as [v|] eqn:Hv;
    [|split; [done | by intros (? & ? & [=] & _)]].
  destruct (environ w !! "SECRET_SDK_PREFIX") as [p|] eqn:Hp;
    [|split; [done | by intros (? & ? & _ & [=] & _)]].
  rewrite ssm_secret_performed, Hv. simpl.
  unfold resolve_spec. rewrite <- prefix_test_library.
  destruct (String.eqb (slice_to (String.length p) v) p) eqn:Ht; simpl.
  - apply prefix_test_true in Ht. split; [eauto | done].
  - apply prefix_test_false in Ht. split; [done|].
    intros (v' & p' & [= <-] & [= <-] & Hst). contradiction.
Qed.

(** X9. With the three variables set and a primary value that does not
    start with the configured prefix, the request answers with the primary
    value and [SECRET] behind their labels, and looks nothing up. *)
Theorem handler_literal (w : World) (v p s : string) :
  environ w !! "SECRET_SDK" = Some v →
  environ w !! "SECRET_SDK_PREFIX" = Some p →
  environ w !! "SECRET" = Some s →
  ¬ starts_with p v →
  hello w
  = (inr ("SDK decrypted: " +:+ v +:+ "Ssn-env decrypted: " +:+ s),
     after w [ClientCreated "ssm"]).
Proof.
  intros Hv Hp Hs Hlit%prefix_test_false.
  rewrite (hello_run w v p Hv Hp), (ssm_secret_literal v p w v Hv Hlit), Hs.
  reflexivity.
Qed.

Lemma handler_literal_witness :
  ¬ starts_with "ssm_sdk://" "plain-secret" ∧
  hello Scenario.literal
  = (inr "SDK decrypted: plain-secretSsn-env decrypted: hunter2",
     after Scenario.literal [ClientCreated "ssm"]).
Proof.
  assert (¬ starts_with "ssm_sdk://" "plain-secret") as Hlit
    by (apply prefix_test_false; vm_compute; reflexivity).
  split; [exact Hlit|].
  apply (handler_literal Scenario.literal "plain-secret" "ssm_sdk://"
           "hunter2"); [vm_compute; reflexivity ..|exact Hlit].
Defined.

(** X10. With the three variables set, a primary value [p + name] where [p]
    is the configured prefix, and a reachable store holding [name], the
    request answers with the decrypted value of that parameter and [SECRET]
    behind their labels, after one lookup of [name]. *)
Theorem handler_reference (w : World) (p name s : string)
    (q : SsmParameter) :
  environ w !! "SECRET_SDK" = Some (p +:+ name) →
  environ w !! "SECRET_SDK_PREFIX" = Some p →
  environ w !! "SECRET" = Some s →
  fault (ssm w) = None →
  parameters (ssm w) !! name = Some q →
  hello w
  = (inr ("SDK decrypted: " +:+ Value q +:+ "Ssn-env decrypted: " +:+ s),
     after w [ClientCreated "ssm"; GetParameter name true]).
Proof.
  intros Hv Hp Hs Hfault Hq.
  assert (String.eqb (slice_to (String.length p) (p +:+ name)) p = true)
    as Ht by (apply prefix_test_true; by exists name).
  rewrite (hello_run w _ p Hv Hp), (ssm_secret_reference _ p w _ Hv Ht), Hs.
  rewrite slice_from_app. unfold lookup_outcome, store_get_parameter.
  rewrite Hfault, Hq. reflexivity.
Qed.

Lemma handler_reference_witness :
  parameters (ssm Edge.noisy) !! "db/password"
  = Some (mkParam "AQICAHh" "s3cr3t") ∧
  hello Edge.noisy
  = (inr "SDK decrypted: s3cr3tSsn-env decrypted: hunter2",
     after Edge.noisy [ClientCreated "ssm"; GetParameter "db/password" true]).
Proof.
  split; [vm_compute; reflexivity|].
  apply (handler_reference Edge.noisy "ssm_sdk://" "db/password" "hunter2"
           (mkParam "AQICAHh" "s3cr3t")); vm_compute; reflexivity.
Defined.




Example scenario_denied :
  hello Edge.denied
  = (inl (ClientError "db/password" AccessDeniedException),
     after Edge.denied [ClientCreated "ssm"; GetParameter "db/password" true]).
Proof. vm_compute. reflexivity. Qed.
